(** * hearing-test-server: the [/addToShopify] relay of [server.mjs]

    A shallow embedding of the single request handler of [src/server.mjs]
    and of the fragment of its dependencies that the handler exercises:

    - JSON values as [express.json()] leaves them in [req.body];
    - the [Joi] combinators that build [customerSchema], with Joi's default
      preferences ([abortEarly], [convert], unknown keys forbidden) and the
      shallow clone that object validation works on;
    - the handler itself, in a small state monad that threads the clock
      reads ([new Date()]) and the log of outbound [fetch] calls.

    Large third-party algorithms (the e-mail address grammar behind
    [Joi.string().email()], [libphonenumber-js], the numeric-string
    conversion of [Joi.number()], [JSON.stringify], [Date#toISOString]) and
    the network are variables of the sections below.  [console.log] output
    is not modelled. *)

From Stdlib Require Import String Ascii List Bool ZArith QArith Qround.
From Stdlib Require Import DecimalString Permutation Lia.
Import ListNotations.
Set Warnings "-register-all".
Local Open Scope string_scope.
Local Open Scope list_scope.

(** ** JSON values *)

(** A JavaScript number read by [JSON.parse]: a finite double (a rational)
    or an infinity (a literal such as [1e999] overflows). *)
Inductive number : Type :=
| Finite (q : Q)
| Infinity (negative : bool).

Inductive json : Type :=
| JNull
| JBool (b : bool)
| JNum (n : number)
| JStr (s : string)
| JArr (items : list json)
| JObj (members : list (string * json)).

(** A JavaScript object: its own enumerable properties in the order in
    which they were created (for a parsed body, the order of the text).
    Property names are distinct; [get] reads the first binding. *)
Definition object : Type := list (string * json).

Fixpoint get (o : object) (key : string) : option json :=
  match o with
  | [] => None
  | (k, v) :: rest => if String.eqb k key then Some v else get rest key
  end.

Definition keys (o : object) : list string := map fst o.

(** An array index: the canonical decimal text of an integer from 0 to
    2^32 - 2. *)
Definition digit (c : ascii) : option N :=
  let n := N_of_ascii c in
  if (48 <=? n)%N && (n <=? 57)%N then Some (n - 48)%N else None.

Fixpoint digits (s : string) (acc : N) : option N :=
  match s with
  | EmptyString => Some acc
  | String c rest =>
      match digit c with
      | Some d => digits rest (10 * acc + d)%N
      | None => None
      end
  end.

Definition array_index (s : string) : option N :=
  match s with
  | EmptyString => None
  | String c rest =>
      match digit c, rest with
      | Some 0%N, EmptyString => Some 0%N
      | Some 0%N, String _ _ => None
      | _, _ =>
          match digits s 0 with
          | Some n => if (n <=? 4294967294)%N then Some n else None
          | None => None
          end
      end
  end.

Definition indexed (ks : list string) : list (N * string) :=
  flat_map (fun k => match array_index k with
                     | Some n => [ (n, k) ]
                     | None => []
                     end) ks.

Definition named (ks : list string) : list string :=
  filter (fun k => match array_index k with
                   | Some _ => false
                   | None => true
                   end) ks.

Fixpoint insert (x : N * string) (l : list (N * string))
  : list (N * string) :=
  match l with
  | [] => [ x ]
  | y :: rest =>
      if (fst x <=? fst y)%N then x :: l else y :: insert x rest
  end.

Definition ascending (l : list (N * string)) : list (N * string) :=
  fold_right insert [] l.

(** [Object.keys]: the array indices in ascending order, then the other
    names in the order of their creation. *)
Definition Object_keys (o : object) : list string :=
  map snd (ascending (indexed (keys o))) ++ named (keys o).

(** [req.body] after [express.json()] in its default strict mode: the parser
    accepts only a top-level object or array, and leaves the empty object
    when the request carried no JSON. *)
Inductive req_body : Type :=
| BodyObject (o : object)
| BodyArray (items : list json).

(** JavaScript truthiness of a string ([if (s)], [s || d]). *)
Definition truthy (s : string) : bool :=
  match s with
  | EmptyString => false
  | String _ _ => true
  end.

(** [x || d] for a string-or-undefined [x]. *)
Definition or_else (x : option string) (d : string) : string :=
  match x with
  | Some s => if truthy s then s else d
  | None => d
  end.

(** ** Errors thrown by the runtime *)

Record js_error : Type := { err_name : string; err_message : string }.

(** [Error.prototype.toString]. *)
Definition Error_toString (e : js_error) : string :=
  match err_name e, err_message e with
  | EmptyString, msg => msg
  | name, EmptyString => name
  | name, msg => name ++ ": " ++ msg
  end.

(** ** Joi *)

Module Joi.

Inductive code : Type :=
| any_required
| string_base
| string_empty
| string_email
| number_base
| number_infinity
| number_unsafe
| object_base
| object_unknown.

(** One entry of [error.details]. *)
Record detail : Type := { type : code; label : string }.

Definition dquote : string := String (ascii_of_nat 34) EmptyString.

(** Joi's message templates; the label is wrapped in double quotes. *)
Definition template (c : code) : string :=
  match c with
  | any_required => " is required"
  | string_base => " must be a string"
  | string_empty => " is not allowed to be empty"
  | string_email => " must be a valid email"
  | number_base => " must be a number"
  | number_infinity => " cannot be infinity"
  | number_unsafe => " must be a safe number"
  | object_base => " must be of type object"
  | object_unknown => " is not allowed"
  end.

Definition message (d : detail) : string :=
  dquote ++ label d ++ dquote ++ template (type d).

(** The outcome of validating one value against one schema. *)
Definition result (T : Type) : Type := code + T.

Definition MAX_SAFE_INTEGER : Q := inject_Z (2 ^ 53 - 1).
Definition MIN_SAFE_INTEGER : Q := inject_Z (- (2 ^ 53 - 1)).

Definition unsafe (q : Q) : bool :=
  negb (Qle_bool q MAX_SAFE_INTEGER) || negb (Qle_bool MIN_SAFE_INTEGER q).

(** What the [coerce] step of [Joi.number()] does with a string. *)
Inductive coerced : Type :=
| NotNumeric                (* the string does not match [numberRx] *)
| Converted (n : number)    (* [parseFloat] of the trimmed string *)
| ConvertedUnsafe.          (* digits are lost by the conversion *)

Section Types.

(** The address check behind [Joi.string().email()]. *)
Variable isEmailValid : string -> bool.

(** The string-to-number conversion of [Joi.number()]. *)
Variable coerce_number : string -> coerced.

(** [Joi.string()]: the base type, then the rules in order. *)
Definition string_ (email : bool) (v : json) : result string :=
  match v with
  | JStr s =>
      if negb (truthy s) then inl string_empty
      else if email && negb (isEmailValid s) then inl string_email
      else inr s
  | _ => inl string_base
  end.

(** The base validation of [Joi.number()] on a number. *)
Definition number_base_validate (n : number) : result number :=
  match n with
  | Infinity _ => inl number_infinity
  | Finite q => if unsafe q then inl number_unsafe else inr n
  end.

(** [Joi.number()]: strings are coerced first (preference [convert]). *)
Definition number_ (v : json) : result number :=
  match v with
  | JNum n => number_base_validate n
  | JStr s =>
      match coerce_number s with
      | NotNumeric => inl number_base
      | ConvertedUnsafe => inl number_unsafe
      | Converted n => number_base_validate n
      end
  | _ => inl number_base
  end.

(** Presence: [.required()] and [.optional()] on an item that may be
    [undefined]. *)
Definition required {T} (ty : json -> result T) (item : option json)
  : result T :=
  match item with
  | None => inl any_required
  | Some v => ty v
  end.

Definition optional {T} (ty : json -> result T) (item : option json)
  : result (option T) :=
  match item with
  | None => inr None
  | Some v =>
      match ty v with
      | inl c => inl c
      | inr x => inr (Some x)
      end
  end.

End Types.

(** Validation of a child under its key: the error carries the key as
    label. *)
Definition child {T} (key : string) (r : result T) : detail + T :=
  match r with
  | inl c => inl {| type := c; label := key |}
  | inr x => inr x
  end.

(** The shallow clone that object validation works on:
    [Object.assign(Object.create(Object.getPrototypeOf(value)), value)].
    Every own property of the source is written with an ordinary
    assignment.  Assigning [__proto__] runs the setter of
    [Object.prototype]: an object becomes the prototype of the clone, a
    primitive is ignored, and either way the clone gets no own [__proto__].
    [inherited] holds the properties that the clone then inherits; a
    prototype that is [null] or an array has none under the names of a
    schema. *)
Record cloned : Type := { own : object; inherited : object }.

Definition clone (o : object) : cloned :=
  {| own := filter (fun kv => negb (String.eqb (fst kv) "__proto__")) o;
     inherited :=
       match get o "__proto__" with
       | Some (JObj members) => members
       | _ => []
       end |}.

(** [value[key]] on the clone, for a key that [Object.prototype] does not
    define: the own property, or else the inherited one. *)
Definition read (value : cloned) (key : string) : option json :=
  match get (own value) key with
  | Some v => Some v
  | None => get (inherited value) key
  end.

(** The first key of [o], in the order of [Object.keys], that the schema
    does not declare. *)
Definition unprocessed (schema_keys : list string) (o : object)
  : option string :=
  find (fun k => negb (existsb (String.eqb k) schema_keys)) (Object_keys o).

End Joi.

(** ** The handler's data *)

(** [value] as [customerSchema.validate] returns it. *)
Record customer : Type := {
  email : string;
  firstName : option string;
  lastName : option string;
  phone : option string;
  hearingLossLevel : option string;
  averageVolume : option number;
  wordRecognitionScore : option number;
  wordsMissed : option number
}.

(** The second argument of [fetch], with the URL. *)
Record request : Type := {
  req_url : string;
  req_method : string;
  req_headers : list (string * string);
  req_body_text : string
}.

(** What the handler reads of the [Response] that [fetch] resolves to.
    [res_json] is the outcome of [await shopifyResponse.json()]. *)
Record upstream_response : Type := {
  res_status : Z;
  res_headers : list (string * string);
  res_json : js_error + json
}.

(** [Response#ok] of node-fetch. *)
Definition ok (r : upstream_response) : bool :=
  (200 <=? res_status r)%Z && (res_status r <? 300)%Z.

(** What the handler sends back: [res.status(s).json(b)]. *)
Record reply : Type := { status : Z; sent : json }.

(** The state a request threads: how many times the clock was read and the
    outbound calls issued so far, oldest first. *)
Record world : Type := { clock : nat; outbound : list request }.

Definition M (A : Type) : Type := world -> A * world.

Definition ret {A} (a : A) : M A := fun w => (a, w).

Definition bind {A B} (m : M A) (k : A -> M B) : M B :=
  fun w => let (a, w') := m w in k a w'.

Notation "x <- m ;; k" := (bind m (fun x => k))
  (at level 61, m at next level, right associativity).

(** ** A sample environment

    Stand-ins for the dependencies and the network, to run the model on
    concrete requests.  They are deliberately crude: the properties below
    are proved for every environment, and these only instantiate them. *)

Module Sample.

Definition SHOPIFY_ACCESS_TOKEN : string := "shpat_0123456789abcdef".
Definition SHOPIFY_STORE_URL : string := "hearing-test.myshopify.com".

(** An at sign with text before and after it. *)
Definition isEmailValid (s : string) : bool :=
  match index 0 "@" s with
  | Some n => (0 <? n)%nat && (S n <? String.length s)%nat
  | None => false
  end.

(** Converts no string at all. *)
Definition coerce_number (s : string) : Joi.coerced := Joi.NotNumeric.

(** A phone number is its text; it parses when it starts with a plus sign
    and is valid from eight characters on. *)
Definition PhoneNumber : Type := string.

Definition parsePhoneNumberFromString (s : string) : option PhoneNumber :=
  if prefix "+" s then Some s else None.

Definition isValid (p : PhoneNumber) : bool := (8 <=? String.length p)%nat.

Definition decimal (z : Z) : string := NilZero.string_of_int (Z.to_int z).

(** Strings are not escaped and numbers lose their fractional part. *)
Fixpoint JSON_stringify (j : json) : string :=
  match j with
  | JNull => "null"
  | JBool true => "true"
  | JBool false => "false"
  | JNum (Finite q) => decimal (Qfloor q)
  | JNum (Infinity _) => "null"
  | JStr s => Joi.dquote ++ s ++ Joi.dquote
  | JArr items => "[" ++ String.concat "," (map JSON_stringify items) ++ "]"
  | JObj members =>
      "{" ++ String.concat ","
               (map (fun kv => (Joi.dquote ++ fst kv ++ Joi.dquote ++ ":"
                                ++ JSON_stringify (snd kv))%string) members)
          ++ "}"
  end.

(** The time as a count of milliseconds. *)
Definition toISOString (t : Z) : string := decimal t.

Definition now (n : nat) : Z := 1700000000000 + Z.of_nat n.

Definition w0 : world := {| clock := 0; outbound := [] |}.

(** Some requests, and what the schema makes of those it accepts. *)
Definition anonymous : req_body := BodyObject [ ("email", JStr "a@b.com") ].

Definition anonymous_value : customer :=
  {| email := "a@b.com"; firstName := None; lastName := None; phone := None;
     hearingLossLevel := None; averageVolume := None;
     wordRecognitionScore := None; wordsMissed := None |}.

Definition ann : object :=
  [ ("email", JStr "ann@example.com");
    ("firstName", JStr "Ann");
    ("hearingLossLevel", JStr "moderate");
    ("averageVolume", JNum (Finite (inject_Z 42)));
    ("wordsMissed", JNum (Finite (inject_Z 3))) ].

Definition ann_value : customer :=
  {| email := "ann@example.com"; firstName := Some "Ann"; lastName := None;
     phone := None; hearingLossLevel := Some "moderate";
     averageVolume := Some (Finite (inject_Z 42));
     wordRecognitionScore := None;
     wordsMissed := Some (Finite (inject_Z 3)) |}.

Definition no_address : req_body :=
  BodyObject [ ("firstName", JStr "Ann"); ("email", JStr "ann.example.com") ].

Definition local_phone : object :=
  [ ("email", JStr "a@b.com"); ("phone", JStr "555-0100") ].

Definition local_phone_value : customer :=
  {| email := "a@b.com"; firstName := None; lastName := None;
     phone := Some "555-0100"; hearingLossLevel := None;
     averageVolume := None; wordRecognitionScore := None;
     wordsMissed := None |}.

Definition with_referrer : object :=
  [ ("email", JStr "a@b.com"); ("referrer", JStr "newsletter") ].

Definition empty_name : req_body :=
  BodyObject [ ("email", JStr "a@b.com"); ("firstName", JStr "") ].

Definition huge_volume : req_body :=
  BodyObject [ ("email", JStr "a@b.com");
               ("averageVolume", JNum (Finite (inject_Z (2 ^ 53)))) ].

(** Three upstreams: one refuses the customer, one creates it, one cannot
    be reached. *)
Definition taken : json :=
  JObj [ ("errors",
          JObj [ ("email", JArr [ JStr "has already been taken" ]) ]) ].

Definition refusing (r : request) : js_error + upstream_response :=
  inr {| res_status := 422;
         res_headers := [ ("X-Shopify-Shop-Api-Call-Limit", "1/40") ];
         res_json := inr taken |}.

Definition created : json :=
  JObj [ ("customer",
          JObj [ ("id", JNum (Finite (inject_Z 207119551)));
                 ("email", JStr "a@b.com") ]) ].

Definition creating (r : request) : js_error + upstream_response :=
  inr {| res_status := 201;
         res_headers := [ ("X-Shopify-Shop-Api-Call-Limit", "1/40") ];
         res_json := inr created |}.

Definition unreachable : js_error :=
  {| err_name := "FetchError";
     err_message := "request to " ++ SHOPIFY_STORE_URL ++ " failed" |}.

Definition failing (r : request) : js_error + upstream_response :=
  inl unreachable.

End Sample.

(** ** Start-up

    The top level of [server.mjs]: the two credentials are read from
    [process.env]; the process exits with status 1 when either is missing,
    and listens otherwise. *)

(** [process.env], once [dotenv.config()] has run. *)
Definition process_env : Type := string -> option string.

(** [!x] for a string-or-undefined [x]. *)
Definition not_ (x : option string) : bool :=
  match x with
  | Some s => negb (truthy s)
  | None => true
  end.

(** [process.env.PORT || 5001]: the text of the variable, or the number. *)
Inductive port : Type :=
| PortText (s : string)
| PortNumber (n : Z).

Inductive outcome : Type :=
| Exit (code : Z)
| Listen (PORT : port) (SHOPIFY_ACCESS_TOKEN SHOPIFY_STORE_URL : option string).

Definition main (env : process_env) : outcome :=
  let SHOPIFY_ACCESS_TOKEN := env "SHOPIFY_ACCESS_TOKEN" in
  let SHOPIFY_STORE_URL := env "SHOPIFY_STORE_URL" in
  if not_ SHOPIFY_ACCESS_TOKEN || not_ SHOPIFY_STORE_URL then Exit 1
  else
    let PORT :=
      match env "PORT" with
      | Some p => if truthy p then PortText p else PortNumber 5001
      | None => PortNumber 5001
      end in
    Listen PORT SHOPIFY_ACCESS_TOKEN SHOPIFY_STORE_URL.

(** More sample data. *)
Module Fixture.

Definition configured (name : string) : option string :=
  if String.eqb name "SHOPIFY_ACCESS_TOKEN" then Some Sample.SHOPIFY_ACCESS_TOKEN
  else if String.eqb name "SHOPIFY_STORE_URL" then Some Sample.SHOPIFY_STORE_URL
  else if String.eqb name "PORT" then Some "8080"
  else None.

(** The same request with its properties in two orders. *)
Definition ann_reordered : object :=
  [ ("wordsMissed", JNum (Finite (inject_Z 3)));
    ("hearingLossLevel", JStr "moderate");
    ("email", JStr "ann@example.com");
    ("averageVolume", JNum (Finite (inject_Z 42)));
    ("firstName", JStr "Ann") ].

(** [Sample.ann] with other scores. *)
Definition ann_rescored : object :=
  [ ("email", JStr "ann@example.com");
    ("firstName", JStr "Ann");
    ("hearingLossLevel", JStr "moderate");
    ("wordRecognitionScore", JNum (Finite (inject_Z 80))) ].

Definition ann_rescored_value : customer :=
  {| email := "ann@example.com"; firstName := Some "Ann"; lastName := None;
     phone := None; hearingLossLevel := Some "moderate";
     averageVolume := None;
     wordRecognitionScore := Some (Finite (inject_Z 80));
     wordsMissed := None |}.

(** A valid request with two keys that the schema does not declare. *)
Definition tracked : object :=
  [ ("utm", JStr "spring"); ("email", JStr "a@b.com");
    ("referrer", JStr "newsletter") ].

(** Keys in the order [utm], [email], [7]. *)
Definition numbered : object :=
  [ ("utm", JStr "spring"); ("email", JStr "a@b.com"); ("7", JStr "x") ].

(** Bodies with an own [__proto__]. *)
Definition proto_email : req_body :=
  BodyObject [ ("__proto__", JObj [ ("email", JStr "a@b.com") ]) ].

Definition proto_extra : object :=
  [ ("email", JStr "a@b.com");
    ("__proto__", JObj [ ("x", JNum (Finite (inject_Z 1))) ]) ].

Definition proto_name : object :=
  [ ("email", JStr "a@b.com");
    ("__proto__", JObj [ ("firstName", JStr "Mallory") ]) ].

(** Two upstreams whose answer is not JSON: a gateway error page, and a
    success without content. *)
Definition not_json : js_error :=
  {| err_name := "SyntaxError";
     err_message := "Unexpected token < in JSON at position 0" |}.

Definition bad_gateway : upstream_response :=
  {| res_status := 502; res_headers := []; res_json := inl not_json |}.

Definition no_json : js_error :=
  {| err_name := "SyntaxError";
     err_message := "Unexpected end of JSON input" |}.

Definition no_content : upstream_response :=
  {| res_status := 204; res_headers := []; res_json := inl no_json |}.

End Fixture.

(** ** [/addToShopify] *)

Section Server.

(** [process.env]. *)
Variable SHOPIFY_ACCESS_TOKEN : string.
Variable SHOPIFY_STORE_URL : string.

(** Dependencies. *)
Variable isEmailValid : string -> bool.
Variable coerce_number : string -> Joi.coerced.
Variable PhoneNumber : Type.
Variable parsePhoneNumberFromString : string -> option PhoneNumber.
Variable isValid : PhoneNumber -> bool.
Variable JSON_stringify : json -> string.
Variable toISOString : Z -> string.

(** The environment: the time at the [n]-th reading of the clock, and what
    the network answers to a call ([inl]: the promise rejects). *)
Variable now : nat -> Z.
Variable network : request -> js_error + upstream_response.

Definition schema_keys : list string :=
  [ "email"; "firstName"; "lastName"; "phone"; "hearingLossLevel";
    "averageVolume"; "wordRecognitionScore"; "wordsMissed" ].

Notation "x <-- r ; k" :=
  (match r with inl e => inl e | inr x => k end)
  (at level 61, r at next level, right associativity, only parsing).

(** [customerSchema.validate(req.body)]: the body is cloned, the children
    are read from the clone and checked in the order the schema declares
    them, stopping at the first error, and then the own keys of the clone
    that the schema does not know are refused. *)
Definition customerSchema_validate (body : req_body) : Joi.detail + customer :=
  match body with
  | BodyArray _ => inl {| Joi.type := Joi.object_base; Joi.label := "value" |}
  | BodyObject o =>
      let string_ := Joi.string_ isEmailValid in
      let number_ := Joi.number_ coerce_number in
      let value := Joi.clone o in
      email <-- Joi.child "email"
        (Joi.required (string_ true) (Joi.read value "email"));
      firstName <-- Joi.child "firstName"
        (Joi.optional (string_ false) (Joi.read value "firstName"));
      lastName <-- Joi.child "lastName"
        (Joi.optional (string_ false) (Joi.read value "lastName"));
      phone <-- Joi.child "phone"
        (Joi.optional (string_ false) (Joi.read value "phone"));
      hearingLossLevel <-- Joi.child "hearingLossLevel"
        (Joi.optional (string_ false) (Joi.read value "hearingLossLevel"));
      averageVolume <-- Joi.child "averageVolume"
        (Joi.optional number_ (Joi.read value "averageVolume"));
      wordRecognitionScore <-- Joi.child "wordRecognitionScore"
        (Joi.optional number_ (Joi.read value "wordRecognitionScore"));
      wordsMissed <-- Joi.child "wordsMissed"
        (Joi.optional number_ (Joi.read value "wordsMissed"));
      match Joi.unprocessed schema_keys (Joi.own value) with
      | Some k => inl {| Joi.type := Joi.object_unknown; Joi.label := k |}
      | None =>
          inr {| email := email; firstName := firstName;
                 lastName := lastName; phone := phone;
                 hearingLossLevel := hearingLossLevel;
                 averageVolume := averageVolume;
                 wordRecognitionScore := wordRecognitionScore;
                 wordsMissed := wordsMissed |}
      end
  end.

(** [!phoneNumber || !phoneNumber.isValid()], negated. *)
Definition valid_phone (p : string) : bool :=
  match parsePhoneNumberFromString p with
  | None => false
  | Some phoneNumber => isValid phoneNumber
  end.

(** The phone check of the handler: [true] when the handler goes on. *)
Definition phone_passes (phone : option string) : bool :=
  match phone with
  | Some p => if truthy p then valid_phone p else true
  | None => true
  end.

Definition tags_of (hearingLossLevel : option string) : list string :=
  match hearingLossLevel with
  | Some h => if truthy h then [h] else []
  | None => []
  end.

Definition metafields_of (hearingLossLevel : option string) : list json :=
  match hearingLossLevel with
  | Some h =>
      if truthy h then
        [ JObj [ ("namespace", JStr "custom");
                 ("key", JStr "hearing_loss_level");
                 ("value", JStr h);
                 ("type", JStr "single_line_text_field") ] ]
      else []
  | None => []
  end.

Definition emailMarketingConsent (t : Z) : json :=
  JObj [ ("state", JStr "subscribed");
         ("opt_in_level", JStr "single_opt_in");
         ("consent_updated_at", JStr (toISOString t)) ].

Definition smsMarketingConsent (t : Z) : json :=
  JObj [ ("state", JStr "subscribed");
         ("opt_in_level", JStr "single_opt_in");
         ("consent_updated_at", JStr (toISOString t));
         ("consent_collected_from", JStr "SHOPIFY") ].

(** The record under the key [customer] of [shopifyPayload]; [t1] and [t2]
    are the two clock readings. *)
Definition shopifyCustomer (value : customer) (t1 t2 : Z) : object :=
  let tags := tags_of (hearingLossLevel value) in
  let tagsString := String.concat ", " tags in
  let metafields := metafields_of (hearingLossLevel value) in
  [ ("email", JStr (email value));
    ("first_name", JStr (or_else (firstName value) ""));
    ("last_name", JStr (or_else (lastName value) ""));
    ("phone", JStr (or_else (phone value) ""));
    ("verified_email", JBool true);
    ("accepts_marketing", JBool true);
    ("state", JStr "enabled");
    ("tags", JStr tagsString);
    ("metafields", JArr metafields);
    ("email_marketing_consent", emailMarketingConsent t1);
    ("sms_marketing_consent", smsMarketingConsent t2) ].

Definition shopifyPayload (value : customer) (t1 t2 : Z) : json :=
  JObj [ ("customer", JObj (shopifyCustomer value t1 t2)) ].

Definition shopifyRequest (payload : json) : request :=
  {| req_url :=
       "https://" ++ SHOPIFY_STORE_URL ++ "/admin/api/2023-07/customers.json";
     req_method := "POST";
     req_headers :=
       [ ("Content-Type", "application/json");
         ("X-Shopify-Access-Token", SHOPIFY_ACCESS_TOKEN) ];
     req_body_text := JSON_stringify payload |}.

(** [new Date()]. *)
Definition new_Date : M Z :=
  fun w => (now (clock w),
            {| clock := S (clock w); outbound := outbound w |}).

(** [await fetch(url, init)]. *)
Definition fetch (r : request) : M (js_error + upstream_response) :=
  fun w => (network r,
            {| clock := clock w; outbound := outbound w ++ [r] |}).

Definition json_reply (s : Z) (b : json) : reply :=
  {| status := s; sent := b |}.

(** The [catch] clause. *)
Definition server_error (error : js_error) : reply :=
  json_reply 500
    (JObj [ ("message", JStr "Internal Server Error");
            ("error", JStr (Error_toString error)) ]).

(** The body of the [try] block once [fetch] has settled. *)
Definition translate (settled : js_error + upstream_response) : reply :=
  match settled with
  | inl error => server_error error
  | inr shopifyResponse =>
      if negb (ok shopifyResponse) then
        match res_json shopifyResponse with
        | inl error => server_error error
        | inr errorData =>
            json_reply (res_status shopifyResponse)
              (JObj [ ("error", errorData) ])
        end
      else
        match res_json shopifyResponse with
        | inl error => server_error error
        | inr shopifyData =>
            json_reply 200
              (JObj [ ("message",
                       JStr "Customer added to Shopify successfully");
                      ("data", shopifyData) ])
        end
  end.

(** [app.post('/addToShopify', async (req, res) => ...)]. *)
Definition addToShopify (body : req_body) : M reply :=
  match customerSchema_validate body with
  | inl error => ret (json_reply 400 (JObj [ ("error", JStr (Joi.message error)) ]))
  | inr value =>
      if negb (phone_passes (phone value)) then
        ret (json_reply 400
               (JObj [ ("error",
                        JStr "Enter a valid phone number in E.164 format") ]))
      else
        t1 <- new_Date ;;
        t2 <- new_Date ;;
        let shopifyPayload := shopifyPayload value t1 t2 in
        settled <- fetch (shopifyRequest shopifyPayload) ;;
        ret (translate settled)
  end.

(** The [email] property of the body. *)
Definition email_field (body : req_body) : option json :=
  match body with
  | BodyObject o => get o "email"
  | BodyArray _ => None
  end.

(** What validation reads under [key]: the body's own property, or else
    the property of the object that the body carries as [__proto__]. *)
Definition seen (o : object) (key : string) : option json :=
  Joi.read (Joi.clone o) key.

(** The [email] that validation reads. *)
Definition email_seen (body : req_body) : option json :=
  match body with
  | BodyObject o => seen o "email"
  | BodyArray _ => None
  end.

(** A non-empty string that is a valid address. *)
Definition valid_email_value (item : option json) : bool :=
  match item with
  | Some (JStr s) => truthy s && isEmailValid s
  | _ => false
  end.

(** The error that the [try] block catches, if any: the rejection of
    [fetch], or what [json()] throws on the answer. *)
Definition fault (settled : js_error + upstream_response) : option js_error :=
  match settled with
  | inl error => Some error
  | inr shopifyResponse =>
      match res_json shopifyResponse with
      | inl error => Some error
      | inr _ => None
      end
  end.

(** What [Joi.string().optional()] lets through: nothing, or a non-empty
    string. *)
Definition accepted_string (item : option json) : bool :=
  match item with
  | None => true
  | Some (JStr s) => truthy s
  | Some _ => false
  end.

(** What [Joi.number().optional()] lets through: nothing, a finite number
    in the safe range, or a string converted to one. *)
Definition accepted_number (item : option json) : bool :=
  match item with
  | None => true
  | Some (JNum (Finite q)) => negb (Joi.unsafe q)
  | Some (JStr s) =>
      match coerce_number s with
      | Joi.Converted (Finite q) => negb (Joi.unsafe q)
      | _ => false
      end
  | Some _ => false
  end.

(** The request the handler issues for [value] in the world [w]. *)
Definition issued (value : customer) (w : world) : request :=
  shopifyRequest (shopifyPayload value (now (clock w)) (now (S (clock w)))).

(** Whether the handler gets as far as [fetch]. *)
Definition forwards (body : req_body) : bool :=
  match customerSchema_validate body with
  | inl _ => false
  | inr value => phone_passes (phone value)
  end.

(** Requests handled one after the other.  Up to its call to [fetch] the
    handler runs without suspending, so what one request does to the clock
    and to the log of calls is never interleaved with another's. *)
Fixpoint serve (bodies : list req_body) : M (list reply) :=
  match bodies with
  | [] => ret []
  | body :: rest =>
      r <- addToShopify body ;;
      rs <- serve rest ;;
      ret (r :: rs)
  end.

(** ** Schema validation *)

Lemma string_inr email v s :
  Joi.string_ isEmailValid email v = inr s ->
  v = JStr s /\ truthy s = true /\ (email = true -> isEmailValid s = true).
Proof.
  destruct v as [ | | | s0 | | ]; simpl; try discriminate.
  destruct (truthy s0) eqn:Ht; simpl; try discriminate.
  destruct email; simpl.
  - destruct (isEmailValid s0) eqn:He; simpl; try discriminate.
    intros [= <-]. auto.
  - intros [= <-]. repeat split; auto. discriminate.
Qed.

Lemma optional_string_inr item x :
  Joi.optional (Joi.string_ isEmailValid false) item = inr x ->
  match x with
  | Some s => item = Some (JStr s) /\ truthy s = true
  | None => item = None
  end.
Proof.
  destruct item as [v|]; simpl.
  - destruct (Joi.string_ isEmailValid false v) as [c|s] eqn:E; try discriminate.
    intros [= <-]. apply string_inr in E. destruct E as (-> & Ht & _). auto.
  - intros [= <-]. reflexivity.
Qed.

(** *** Keys and the clone *)

Lemma In_insert x y l : In x (insert y l) <-> x = y \/ In x l.
Proof.
  induction l as [|z l IH]; simpl.
  - split; intros [H|H]; auto.
  - destruct (fst y <=? fst z)%N; simpl; [split; intros [H|H]; auto|].
    rewrite IH. split; intros [H|[H|H]]; auto.
Qed.

Lemma In_ascending x l : In x (ascending l) <-> In x l.
Proof.
  induction l as [|y l IH]; simpl; [reflexivity|].
  rewrite In_insert, IH. split; intros [H|H]; auto.
Qed.

Lemma In_indexed n k ks :
  In (n, k) (indexed ks) <-> In k ks /\ array_index k = Some n.
Proof.
  unfold indexed. rewrite in_flat_map. split.
  - intros (k' & Hin & H). destruct (array_index k') as [n'|] eqn:Hk'.
    + destruct H as [[= <- <-]|[]]. auto.
    + destruct H.
  - intros [Hin Hk]. exists k. split; [assumption|]. rewrite Hk. now left.
Qed.

(** [Object.keys] reorders the keys and neither drops nor adds one. *)
Lemma In_Object_keys o k : In k (Object_keys o) <-> In k (keys o).
Proof.
  unfold Object_keys, named. rewrite in_app_iff, in_map_iff, filter_In.
  split.
  - intros [([n k'] & Heq & Hin)|[Hin _]]; [|assumption].
    simpl in Heq. subst k'. apply In_ascending, In_indexed in Hin.
    apply Hin.
  - intros Hin. destruct (array_index k) as [n|] eqn:Hk.
    + left. exists (n, k). split; [reflexivity|].
      apply In_ascending, In_indexed. auto.
    + right. auto.
Qed.

Lemma get_In_keys o k v : get o k = Some v -> In k (keys o).
Proof.
  induction o as [|[k' v'] o IH]; simpl; [discriminate|].
  destruct (String.eqb k' k) eqn:Hk.
  - apply String.eqb_eq in Hk. auto.
  - auto.
Qed.

Lemma get_own o k :
  k <> "__proto__" -> get (Joi.own (Joi.clone o)) k = get o k.
Proof.
  intros Hk. unfold Joi.clone, Joi.own.
  induction o as [|[k' v'] o IH]; simpl; [reflexivity|].
  destruct (String.eqb k' "__proto__") eqn:Hp; simpl.
  - apply String.eqb_eq in Hp. subst k'.
    destruct (String.eqb "__proto__" k) eqn:Hk'; [|exact IH].
    apply String.eqb_eq in Hk'. now subst k.
  - now rewrite IH.
Qed.

Lemma keys_own o k :
  In k (keys (Joi.own (Joi.clone o))) <-> In k (keys o) /\ k <> "__proto__".
Proof.
  unfold keys. simpl. rewrite !in_map_iff. split.
  - intros ([k' v] & Heq & Hin). simpl in Heq. subst k'.
    apply filter_In in Hin. destruct Hin as [Hin Hk]. simpl in Hk.
    split; [exists (k, v); auto|].
    intros ->. rewrite String.eqb_refl in Hk. discriminate.
  - intros [([k' v] & Heq & Hin) Hk]. simpl in Heq. subst k'.
    exists (k, v). split; [reflexivity|]. apply filter_In.
    split; [assumption|]. simpl.
    apply negb_true_iff, String.eqb_neq. exact Hk.
Qed.

(** An own property hides an inherited one. *)
Lemma seen_own o k v :
  k <> "__proto__" -> get o k = Some v -> seen o k = Some v.
Proof.
  intros Hk Hget. unfold seen, Joi.read. now rewrite (get_own _ _ Hk), Hget.
Qed.

(** Without an own [__proto__] validation reads the body itself. *)
Lemma seen_plain o k :
  get o "__proto__" = None -> k <> "__proto__" -> seen o k = get o k.
Proof.
  intros Hp Hk. unfold seen, Joi.read. rewrite (get_own _ _ Hk).
  simpl. rewrite Hp. now destruct (get o k).
Qed.

Lemma declared_spec k :
  existsb (String.eqb k) schema_keys = true <-> In k schema_keys.
Proof.
  rewrite existsb_exists. split.
  - intros (x & Hin & Heq). apply String.eqb_eq in Heq. now subst.
  - intros Hin. exists k. split; [assumption | apply String.eqb_refl].
Qed.

Lemma unprocessed_none o :
  Joi.unprocessed schema_keys o = None <->
  forall k, In k (keys o) -> In k schema_keys.
Proof.
  unfold Joi.unprocessed. split.
  - intros Hnone k Hin. apply In_Object_keys in Hin.
    apply (find_none _ _ Hnone) in Hin.
    now apply negb_false_iff, declared_spec in Hin.
  - intros Hall. destruct (find _ (Object_keys o)) as [k|] eqn:Hfind;
      [|reflexivity].
    apply find_some in Hfind. destruct Hfind as [Hin Hk].
    apply In_Object_keys, Hall, declared_spec in Hin.
    rewrite Hin in Hk. discriminate.
Qed.

Lemma unprocessed_some o k :
  In k (keys o) -> ~ In k schema_keys ->
  exists k', Joi.unprocessed schema_keys o = Some k' /\
             In k' (keys o) /\ ~ In k' schema_keys.
Proof.
  intros Hin Hout.
  destruct (Joi.unprocessed schema_keys o) as [k'|] eqn:Hun.
  - unfold Joi.unprocessed in Hun. apply find_some in Hun.
    destruct Hun as [Hk' Hneg]. exists k'. repeat split.
    + now apply In_Object_keys.
    + intros Hdecl. apply declared_spec in Hdecl.
      rewrite Hdecl in Hneg. discriminate.
  - exfalso. apply Hout. now apply (proj1 (unprocessed_none o) Hun).
Qed.

(** A body whose keys are all declared has no [__proto__], and its clone
    has no undeclared key either. *)
Lemma declared_no_proto o :
  Joi.unprocessed schema_keys o = None -> get o "__proto__" = None.
Proof.
  intros Hun. destruct (get o "__proto__") as [v|] eqn:Hget; [|reflexivity].
  apply get_In_keys in Hget. apply (proj1 (unprocessed_none o) Hun) in Hget.
  simpl in Hget.
  repeat (destruct Hget as [Hget|Hget]; [discriminate Hget|]).
  destruct Hget.
Qed.

Lemma declared_own o :
  Joi.unprocessed schema_keys o = None ->
  Joi.unprocessed schema_keys (Joi.own (Joi.clone o)) = None.
Proof.
  rewrite !unprocessed_none. intros Hall k Hin.
  apply keys_own in Hin. now apply Hall.
Qed.

(** *** Schema validation, inverted *)

(** A validated [value] in terms of what validation reads of the body. *)
Lemma validate_inr body value :
  customerSchema_validate body = inr value ->
  exists o,
    body = BodyObject o /\
    Joi.required (Joi.string_ isEmailValid true) (seen o "email")
      = inr (email value) /\
    Joi.optional (Joi.string_ isEmailValid false) (seen o "firstName")
      = inr (firstName value) /\
    Joi.optional (Joi.string_ isEmailValid false) (seen o "lastName")
      = inr (lastName value) /\
    Joi.optional (Joi.string_ isEmailValid false) (seen o "phone")
      = inr (phone value) /\
    Joi.optional (Joi.string_ isEmailValid false) (seen o "hearingLossLevel")
      = inr (hearingLossLevel value) /\
    Joi.optional (Joi.number_ coerce_number) (seen o "averageVolume")
      = inr (averageVolume value) /\
    Joi.optional (Joi.number_ coerce_number) (seen o "wordRecognitionScore")
      = inr (wordRecognitionScore value) /\
    Joi.optional (Joi.number_ coerce_number) (seen o "wordsMissed")
      = inr (wordsMissed value) /\
    Joi.unprocessed schema_keys (Joi.own (Joi.clone o)) = None.
Proof.
  destruct body as [o|items]; [|discriminate].
  unfold customerSchema_validate. fold (seen o).
  repeat match goal with
  | |- context [Joi.child _ ?r] => destruct r eqn:?; simpl; [discriminate|]
  end.
  destruct (Joi.unprocessed schema_keys _) eqn:?; [discriminate|].
  intros [= <-]. exists o. simpl. repeat split; assumption.
Qed.

(** ** The three ways through the handler *)

Lemma addToShopify_rejected body d w :
  customerSchema_validate body = inl d ->
  addToShopify body w
  = (json_reply 400 (JObj [ ("error", JStr (Joi.message d)) ]), w).
Proof. intros H. unfold addToShopify. now rewrite H. Qed.

Lemma addToShopify_phone body value w :
  customerSchema_validate body = inr value ->
  phone_passes (phone value) = false ->
  addToShopify body w
  = (json_reply 400
       (JObj [ ("error", JStr "Enter a valid phone number in E.164 format") ]),
     w).
Proof. intros H Hp. unfold addToShopify. now rewrite H, Hp. Qed.

Lemma addToShopify_forwards body value w :
  customerSchema_validate body = inr value ->
  phone_passes (phone value) = true ->
  addToShopify body w
  = (translate (network (issued value w)),
     {| clock := S (S (clock w));
        outbound := outbound w ++ [ issued value w ] |}).
Proof. intros H Hp. unfold addToShopify. now rewrite H, Hp. Qed.

(** ** Properties of the handler *)

(** C1, amended. A body whose [email], as validation reads it (the body's
    own property, or else the one of the object that the body carries as
    [__proto__]), is missing, empty, not a string or not a valid address (an
    array body has none) is answered with status 400 and a body
    [{error: msg}] holding one message; the world is left as it was, so the
    clock is not read and no call is issued. *)
Theorem invalid_email_rejected body w :
  valid_email_value (email_seen body) = false ->
  exists msg,
    addToShopify body w
    = (json_reply 400 (JObj [ ("error", JStr msg) ]), w) /\
    outbound (snd (addToShopify body w)) = outbound w.
Proof.
  intros Hbad.
  destruct (customerSchema_validate body) as [d|value] eqn:Hv.
  - exists (Joi.message d).
    rewrite (addToShopify_rejected _ _ _ Hv). auto.
  - exfalso. apply validate_inr in Hv.
    destruct Hv as (o & -> & He & _). simpl in Hbad.
    destruct (seen o "email") as [v|]; [|discriminate].
    simpl in He. apply string_inr in He.
    destruct He as (-> & Ht & Hvalid). simpl in Hbad.
    rewrite Ht, (Hvalid eq_refl) in Hbad. discriminate.
Qed.

(** C2. A body that passes the schema and carries a [phone] that the phone
    library does not parse, or parses to a number that is not valid, is
    answered with status 400 and the phone-format message, and no call is
    issued. *)
Theorem invalid_phone_rejected o value p w :
  customerSchema_validate (BodyObject o) = inr value ->
  get o "phone" = Some (JStr p) ->
  valid_phone p = false ->
  addToShopify (BodyObject o) w
  = (json_reply 400
       (JObj [ ("error", JStr "Enter a valid phone number in E.164 format") ]),
     w) /\
  outbound (snd (addToShopify (BodyObject o) w)) = outbound w.
Proof.
  intros Hv Hget Hbad.
  assert (Hp : phone_passes (phone value) = false).
  { apply validate_inr in Hv.
    destruct Hv as (o' & [= <-] & _ & _ & _ & Hphone & _).
    apply optional_string_inr in Hphone.
    assert (Hseen : seen o "phone" = Some (JStr p))
      by (apply seen_own; [discriminate | exact Hget]).
    destruct (phone value) as [p'|].
    - destruct Hphone as [Heq Ht]. rewrite Hseen in Heq.
      injection Heq as <-. simpl. rewrite Ht. exact Hbad.
    - rewrite Hseen in Hphone. discriminate. }
  rewrite (addToShopify_phone _ _ _ Hv Hp). auto.
Qed.

(** C10, amended. A body with an own key other than [__proto__] that the
    schema does not declare is answered with status 400 and no call is
    issued: validation fails, either on a declared child (they are checked
    first) or with [object.unknown] on an undeclared key of the body. *)
Theorem unknown_key_rejected o k w :
  In k (keys o) -> k <> "__proto__" -> ~ In k schema_keys ->
  exists d,
    customerSchema_validate (BodyObject o) = inl d /\
    (In (Joi.label d) schema_keys \/
     Joi.type d = Joi.object_unknown /\
     In (Joi.label d) (keys o) /\ ~ In (Joi.label d) schema_keys) /\
    addToShopify (BodyObject o) w
    = (json_reply 400 (JObj [ ("error", JStr (Joi.message d)) ]), w) /\
    outbound (snd (addToShopify (BodyObject o) w)) = outbound w.
Proof.
  intros Hin Hproto Hout.
  assert (Hown : In k (keys (Joi.own (Joi.clone o))))
    by (apply keys_own; auto).
  destruct (unprocessed_some _ k Hown Hout) as (k' & Hun & Hin' & Hout').
  apply keys_own in Hin'. destruct Hin' as [Hin' _].
  assert (H : exists d,
    customerSchema_validate (BodyObject o) = inl d /\
    (In (Joi.label d) schema_keys \/
     Joi.type d = Joi.object_unknown /\
     In (Joi.label d) (keys o) /\ ~ In (Joi.label d) schema_keys)).
  { revert Hun. unfold customerSchema_validate. cbv zeta.
    generalize (Joi.clone o). intros value Hun.
    repeat match goal with
    | |- context [Joi.child _ ?r] =>
        destruct r; simpl;
        [eexists; split; [reflexivity|]; left; simpl; auto 12|]
    end.
    rewrite Hun. eexists; split; [reflexivity|]. right. simpl. auto. }
  destruct H as (d & Hv & Hd). exists d.
  rewrite (addToShopify_rejected _ _ _ Hv). auto.
Qed.


(** C4. Whatever the validated input and the clock, the payload is a
    [customer] record whose [state] is [enabled], whose [verified_email] is
    [true] and whose [accepts_marketing] is [true]; and whatever the request,
    the handler issues no call or one call, carrying such a payload. *)
Theorem account_flags_fixed :
  (forall value t1 t2,
     exists c,
       shopifyPayload value t1 t2 = JObj [ ("customer", JObj c) ] /\
       get c "state" = Some (JStr "enabled") /\
       get c "verified_email" = Some (JBool true) /\
       get c "accepts_marketing" = Some (JBool true)) /\
  (forall body w,
     outbound (snd (addToShopify body w)) = outbound w \/
     exists value,
       outbound (snd (addToShopify body w))
       = outbound w ++ [ shopifyRequest
                           (shopifyPayload value (now (clock w))
                              (now (S (clock w)))) ]).
Proof.
  split.
  - intros value t1 t2. eexists. split; [reflexivity|]. simpl. auto.
  - intros body w.
    destruct (customerSchema_validate body) as [d|value] eqn:Hv.
    + left. now rewrite (addToShopify_rejected _ _ _ Hv).
    + destruct (phone_passes (phone value)) eqn:Hp.
      * right. exists value.
        now rewrite (addToShopify_forwards _ _ _ Hv Hp).
      * left. now rewrite (addToShopify_phone _ _ _ Hv Hp).
Qed.

(** C5. When the handler forwards a validated input, the one call it issues
    carries a [customer] record whose [first_name], [last_name] and [phone]
    are the input's, or the empty string when absent, and whose two consent
    records are [subscribed] / [single_opt_in], stamped with the two
    successive readings of the clock; the SMS one also names [SHOPIFY] as
    the place the consent was collected from. *)
Theorem defaults_and_consent body value w :
  customerSchema_validate body = inr value ->
  phone_passes (phone value) = true ->
  exists c,
    outbound (snd (addToShopify body w))
    = outbound w ++ [ shopifyRequest (JObj [ ("customer", JObj c) ]) ] /\
    get c "first_name"
    = Some (JStr match firstName value with Some s => s | None => "" end) /\
    get c "last_name"
    = Some (JStr match lastName value with Some s => s | None => "" end) /\
    get c "phone"
    = Some (JStr match phone value with Some s => s | None => "" end) /\
    get c "email_marketing_consent"
    = Some (JObj [ ("state", JStr "subscribed");
                   ("opt_in_level", JStr "single_opt_in");
                   ("consent_updated_at",
                    JStr (toISOString (now (clock w)))) ]) /\
    get c "sms_marketing_consent"
    = Some (JObj [ ("state", JStr "subscribed");
                   ("opt_in_level", JStr "single_opt_in");
                   ("consent_updated_at",
                    JStr (toISOString (now (S (clock w)))));
                   ("consent_collected_from", JStr "SHOPIFY") ]).
Proof.
  intros Hv Hp. rewrite (addToShopify_forwards _ _ _ Hv Hp).
  eexists. split; [reflexivity|]. simpl.
  repeat split; try reflexivity; f_equal; f_equal.
  - destruct (firstName value) as [[|a s]|]; reflexivity.
  - destruct (lastName value) as [[|a s]|]; reflexivity.
  - destruct (phone value) as [[|a s]|]; reflexivity.
Qed.

(** The scenario of C5: the payload sent for [{email: "a@b.com"}]. *)
Lemma email_only_payload w :
  isEmailValid "a@b.com" = true ->
  outbound (snd (addToShopify (BodyObject [ ("email", JStr "a@b.com") ]) w))
  = outbound w ++
    [ shopifyRequest
        (JObj [ ("customer", JObj
          [ ("email", JStr "a@b.com");
            ("first_name", JStr "");
            ("last_name", JStr "");
            ("phone", JStr "");
            ("verified_email", JBool true);
            ("accepts_marketing", JBool true);
            ("state", JStr "enabled");
            ("tags", JStr "");
            ("metafields", JArr []);
            ("email_marketing_consent",
             JObj [ ("state", JStr "subscribed");
                    ("opt_in_level", JStr "single_opt_in");
                    ("consent_updated_at",
                     JStr (toISOString (now (clock w)))) ]);
            ("sms_marketing_consent",
             JObj [ ("state", JStr "subscribed");
                    ("opt_in_level", JStr "single_opt_in");
                    ("consent_updated_at",
                     JStr (toISOString (now (S (clock w)))));
                    ("consent_collected_from", JStr "SHOPIFY") ]) ]) ]) ].
Proof.
  intros He. unfold addToShopify, customerSchema_validate. simpl.
  rewrite He. reflexivity.
Qed.

(** C7, amended. When the upstream answers with a status outside 200..299
    and a body that parses as JSON, to [errorData], the reply has the
    upstream's status and the body [{error: errorData}]. *)
Theorem upstream_failure_passed_through
    body value w shopifyResponse errorData :
  customerSchema_validate body = inr value ->
  phone_passes (phone value) = true ->
  network (issued value w) = inr shopifyResponse ->
  ok shopifyResponse = false ->
  res_json shopifyResponse = inr errorData ->
  fst (addToShopify body w)
  = json_reply (res_status shopifyResponse) (JObj [ ("error", errorData) ]).
Proof.
  intros Hv Hp Hnet Hok Hjson.
  rewrite (addToShopify_forwards _ _ _ Hv Hp). simpl.
  rewrite Hnet. simpl. now rewrite Hok, Hjson.
Qed.

(** C8, amended. When the upstream answers with a status in 200..299 and a
    body that parses as JSON, to [shopifyData], the reply has status 200 and
    the body
    [{message: "Customer added to Shopify successfully", data: shopifyData}]. *)
Theorem upstream_success_reported
    body value w shopifyResponse shopifyData :
  customerSchema_validate body = inr value ->
  phone_passes (phone value) = true ->
  network (issued value w) = inr shopifyResponse ->
  ok shopifyResponse = true ->
  res_json shopifyResponse = inr shopifyData ->
  fst (addToShopify body w)
  = json_reply 200
      (JObj [ ("message", JStr "Customer added to Shopify successfully");
              ("data", shopifyData) ]).
Proof.
  intros Hv Hp Hnet Hok Hjson.
  rewrite (addToShopify_forwards _ _ _ Hv Hp). simpl.
  rewrite Hnet. simpl. now rewrite Hok, Hjson.
Qed.

(** C9. When the call to the upstream is rejected, or the body of its
    answer does not parse (whatever the status), the reply has status 500
    and the body [{message: "Internal Server Error", error: e.toString()}]. *)
Theorem fault_reported body value w error :
  customerSchema_validate body = inr value ->
  phone_passes (phone value) = true ->
  fault (network (issued value w)) = Some error ->
  fst (addToShopify body w)
  = json_reply 500
      (JObj [ ("message", JStr "Internal Server Error");
              ("error", JStr (Error_toString error)) ]).
Proof.
  intros Hv Hp Hfault.
  rewrite (addToShopify_forwards _ _ _ Hv Hp). simpl.
  unfold fault in Hfault.
  destruct (network (issued value w)) as [e|r]; simpl.
  - now injection Hfault as ->.
  - destruct (res_json r) as [e|data]; [|discriminate].
    injection Hfault as ->. now destruct (ok r).
Qed.

(** ** What the schema accepts *)

Lemma required_email_accepts item :
  valid_email_value item = true <->
  exists s, Joi.required (Joi.string_ isEmailValid true) item = inr s.
Proof.
  split.
  - destruct item as [[ | | | s | | ]|]; simpl; try discriminate.
    intros H. apply andb_true_iff in H. destruct H as [Ht He].
    rewrite Ht, He. simpl. eauto.
  - intros [s H]. destruct item as [v|]; simpl in H; [|discriminate].
    apply string_inr in H. destruct H as (-> & Ht & He).
    simpl. now rewrite Ht, (He eq_refl).
Qed.

Lemma optional_string_accepts item :
  accepted_string item = true <->
  exists x, Joi.optional (Joi.string_ isEmailValid false) item = inr x.
Proof.
  split.
  - destruct item as [[ | | | s | | ]|]; simpl; try discriminate; eauto.
    intros ->. simpl. eauto.
  - intros [x H]. apply optional_string_inr in H.
    destruct x as [s|]; [destruct H as [-> Ht]|subst item]; auto.
Qed.

Lemma optional_number_accepts item :
  accepted_number item = true <->
  exists x, Joi.optional (Joi.number_ coerce_number) item = inr x.
Proof.
  unfold accepted_number, Joi.optional, Joi.number_, Joi.number_base_validate.
  split.
  - destruct item as [[ | | [q|neg] | s | | ]|]; try discriminate; eauto.
    + destruct (Joi.unsafe q); [discriminate|]. eauto.
    + destruct (coerce_number s) as [ | [q|neg] | ]; try discriminate.
      destruct (Joi.unsafe q); [discriminate|]. eauto.
  - intros [x H].
    destruct item as [[ | | [q|neg] | s | | ]|]; try discriminate; auto.
    + destruct (Joi.unsafe q); [discriminate|]. reflexivity.
    + destruct (coerce_number s) as [ | [q|neg] | ]; try discriminate.
      destruct (Joi.unsafe q); [discriminate|]. reflexivity.
Qed.

(** The schema accepts an object exactly when each child that validation
    reads is acceptable and the clone is left with no unprocessed key. *)
Lemma validate_accepts o :
  (exists value, customerSchema_validate (BodyObject o) = inr value) <->
  valid_email_value (seen o "email") = true /\
  accepted_string (seen o "firstName") = true /\
  accepted_string (seen o "lastName") = true /\
  accepted_string (seen o "phone") = true /\
  accepted_string (seen o "hearingLossLevel") = true /\
  accepted_number (seen o "averageVolume") = true /\
  accepted_number (seen o "wordRecognitionScore") = true /\
  accepted_number (seen o "wordsMissed") = true /\
  Joi.unprocessed schema_keys (Joi.own (Joi.clone o)) = None.
Proof.
  split.
  - intros [value Hv]. apply validate_inr in Hv.
    destruct Hv as
      (o' & [= <-] & He & Hf & Hl & Hp & Hh & Ha & Hw & Hm & Hun).
    rewrite required_email_accepts, !optional_string_accepts,
      !optional_number_accepts.
    repeat split; eauto.
  - rewrite required_email_accepts, !optional_string_accepts,
      !optional_number_accepts.
    intros ([e He] & [f Hf] & [l Hl] & [p Hp] & [h Hh]
            & [a Ha] & [r Hr] & [m Hm] & Hun).
    unfold seen in *. unfold customerSchema_validate. cbv zeta.
    rewrite He, Hf, Hl, Hp, Hh, Ha, Hr, Hm, Hun. simpl. eauto.
Qed.

(** The first half of the counterexample to C6, for any address check that
    accepts [a@b.com]: an empty [firstName] is refused. *)
Lemma empty_firstName_refused :
  isEmailValid "a@b.com" = true ->
  customerSchema_validate
    (BodyObject [ ("email", JStr "a@b.com"); ("firstName", JStr "") ])
  = inl {| Joi.type := Joi.string_empty; Joi.label := "firstName" |}.
Proof. intros He. unfold customerSchema_validate. simpl. now rewrite He. Qed.

(** C6, amended.  For a body with a valid [email], an acceptable [phone]
    and no undeclared key, the schema accepts the body exactly when each of
    [firstName], [lastName], [hearingLossLevel] is absent or a non-empty
    string and each of [averageVolume], [wordRecognitionScore],
    [wordsMissed] is absent, a finite number within the safe-integer range,
    or a string that Joi converts to such a number. *)
Theorem other_fields_accepted_iff o :
  valid_email_value (get o "email") = true ->
  accepted_string (get o "phone") = true ->
  Joi.unprocessed schema_keys o = None ->
  ((exists value, customerSchema_validate (BodyObject o) = inr value) <->
   accepted_string (get o "firstName") = true /\
   accepted_string (get o "lastName") = true /\
   accepted_string (get o "hearingLossLevel") = true /\
   accepted_number (get o "averageVolume") = true /\
   accepted_number (get o "wordRecognitionScore") = true /\
   accepted_number (get o "wordsMissed") = true).
Proof.
  intros He Hp Hun. rewrite validate_accepts.
  pose proof (declared_no_proto _ Hun) as Hplain.
  rewrite !(seen_plain o _ Hplain) by discriminate.
  split.
  - intros (_ & Hf & Hl & _ & Hh & Ha & Hr & Hm & _). repeat split; assumption.
  - intros (Hf & Hl & Hh & Ha & Hr & Hm).
    repeat split; try assumption. now apply declared_own.
Qed.

(** ** Further properties *)

(** What a request does to the world, whatever the upstream answers. *)
Lemma addToShopify_world body w :
  snd (addToShopify body w)
  = match customerSchema_validate body with
    | inl _ => w
    | inr value =>
        if phone_passes (phone value)
        then {| clock := S (S (clock w));
                outbound := outbound w ++ [ issued value w ] |}
        else w
    end.
Proof.
  destruct (customerSchema_validate body) as [d|value] eqn:Hv.
  - now rewrite (addToShopify_rejected _ _ _ Hv).
  - destruct (phone_passes (phone value)) eqn:Hp.
    + now rewrite (addToShopify_forwards _ _ _ Hv Hp).
    + now rewrite (addToShopify_phone _ _ _ Hv Hp).
Qed.

Lemma app_one_neq {A} (l : list A) (x : A) : l ++ [x] <> l.
Proof.
  intros H. apply (f_equal (@List.length A)) in H.
  rewrite length_app in H. simpl in H.
  rewrite Nat.add_comm in H. simpl in H.
  exact (n_Sn _ (eq_sym H)).
Qed.

(** X3. When the handler issues no call, the request was refused locally:
    the reply has status 400 and a body [{error: msg}] with a text message,
    and the clock was not read. *)
Theorem no_call_is_local_refusal body w :
  outbound (snd (addToShopify body w)) = outbound w ->
  snd (addToShopify body w) = w /\
  exists msg,
    fst (addToShopify body w)
    = json_reply 400 (JObj [ ("error", JStr msg) ]).
Proof.
  intros Hout.
  destruct (customerSchema_validate body) as [d|value] eqn:Hv.
  - rewrite (addToShopify_rejected _ _ _ Hv). simpl. eauto.
  - destruct (phone_passes (phone value)) eqn:Hp.
    + rewrite (addToShopify_forwards _ _ _ Hv Hp) in Hout. simpl in Hout.
      now apply app_one_neq in Hout.
    + rewrite (addToShopify_phone _ _ _ Hv Hp). simpl. eauto.
Qed.

(** X4. A reply with status 200 means that the customer was created: the
    body passed the schema and the phone check, the upstream answered with a
    status in 200..299 and a body that parsed, and the reply carries that
    body under [data]. *)
Theorem status_200_means_created body w :
  status (fst (addToShopify body w)) = 200%Z ->
  exists value shopifyResponse shopifyData,
    customerSchema_validate body = inr value /\
    phone_passes (phone value) = true /\
    network (issued value w) = inr shopifyResponse /\
    ok shopifyResponse = true /\
    res_json shopifyResponse = inr shopifyData /\
    sent (fst (addToShopify body w))
    = JObj [ ("message", JStr "Customer added to Shopify successfully");
             ("data", shopifyData) ].
Proof.
  destruct (customerSchema_validate body) as [d|value] eqn:Hv.
  - rewrite (addToShopify_rejected _ _ _ Hv). discriminate.
  - destruct (phone_passes (phone value)) eqn:Hp.
    + rewrite (addToShopify_forwards _ _ _ Hv Hp). simpl.
      destruct (network (issued value w)) as [e|r] eqn:Hnet; simpl;
        [discriminate|].
      destruct (ok r) eqn:Hok; simpl;
        destruct (res_json r) as [e|data] eqn:Hjson; simpl;
        try discriminate.
      * intros _. exists value, r, data. repeat split; auto.
      * intros H200. unfold ok in Hok. rewrite H200 in Hok. discriminate.
    + rewrite (addToShopify_phone _ _ _ Hv Hp). discriminate.
Qed.

(** X5. The status of a reply is 400, 500 or 200, or else it is the status
    of an upstream answer outside 200..299: the handler never replies with
    another status of its own, and never with 201..299. *)
Theorem reply_status_range body w :
  let s := status (fst (addToShopify body w)) in
  s = 400%Z \/ s = 500%Z \/ s = 200%Z \/
  exists value shopifyResponse,
    network (issued value w) = inr shopifyResponse /\
    s = res_status shopifyResponse /\
    (s < 200 \/ 300 <= s)%Z.
Proof.
  simpl.
  destruct (customerSchema_validate body) as [d|value] eqn:Hv.
  - rewrite (addToShopify_rejected _ _ _ Hv). auto.
  - destruct (phone_passes (phone value)) eqn:Hp.
    + rewrite (addToShopify_forwards _ _ _ Hv Hp). simpl.
      destruct (network (issued value w)) as [e|r] eqn:Hnet; simpl; auto.
      destruct (ok r) eqn:Hok; simpl;
        destruct (res_json r) as [e|data]; simpl; auto.
      do 3 right. exists value, r. repeat split; auto.
      unfold ok in Hok. apply andb_false_iff in Hok.
      destruct Hok as [H|H]; [left; apply Z.leb_gt in H
                             |right; apply Z.ltb_ge in H]; exact H.
    + rewrite (addToShopify_phone _ _ _ Hv Hp). auto.
Qed.

(** X6. The three scores are validated and then dropped: two accepted
    bodies that agree on [email], the names, [phone] and
    [hearingLossLevel] get the same reply and lead to the same call. *)
Theorem scores_not_forwarded body body' value value' w :
  customerSchema_validate body = inr value ->
  customerSchema_validate body' = inr value' ->
  email value = email value' ->
  firstName value = firstName value' ->
  lastName value = lastName value' ->
  phone value = phone value' ->
  hearingLossLevel value = hearingLossLevel value' ->
  addToShopify body w = addToShopify body' w.
Proof.
  intros Hv Hv' He Hf Hl Hp Hh.
  assert (Hreq : issued value w = issued value' w).
  { unfold issued, shopifyPayload, shopifyCustomer.
    now rewrite He, Hf, Hl, Hp, Hh. }
  destruct (phone_passes (phone value)) eqn:Hpass.
  - rewrite (addToShopify_forwards _ _ _ Hv Hpass).
    rewrite Hp in Hpass.
    rewrite (addToShopify_forwards _ _ _ Hv' Hpass).
    now rewrite Hreq.
  - rewrite (addToShopify_phone _ _ _ Hv Hpass).
    rewrite Hp in Hpass.
    now rewrite (addToShopify_phone _ _ _ Hv' Hpass).
Qed.

(** X7. [email] is checked before everything else: when the [email]
    that validation reads (the body's own, or else the one of the object
    that the body carries as [__proto__]) is not a valid address, the error
    names [email], whatever the other properties of the body are, with the
    code of the first check that fails (presence, type, emptiness,
    address). *)
Theorem email_checked_first o :
  valid_email_value (seen o "email") = false ->
  customerSchema_validate (BodyObject o)
  = inl {| Joi.type :=
             match seen o "email" with
             | None => Joi.any_required
             | Some (JStr s) =>
                 if truthy s then Joi.string_email else Joi.string_empty
             | Some _ => Joi.string_base
             end;
           Joi.label := "email" |}.
Proof.
  intros Hbad. unfold customerSchema_validate. cbv zeta.
  unfold seen in *.
  destruct (Joi.read (Joi.clone o) "email") as [[ | | | s | | ]|];
    try reflexivity.
  simpl in Hbad. simpl Joi.required. unfold Joi.string_.
  destruct (truthy s); simpl in *; [|reflexivity].
  now rewrite Hbad.
Qed.

Lemma find_first {A} (f : A -> bool) before x after :
  (forall y, In y before -> f y = false) -> f x = true ->
  find f (before ++ x :: after) = Some x.
Proof.
  intros Hbefore Hx. induction before as [|y before IH]; simpl.
  - now rewrite Hx.
  - rewrite (Hbefore y (or_introl eq_refl)).
    apply IH. intros z Hz. apply Hbefore. now right.
Qed.

(** X8. Undeclared keys are looked at last, in the order of [Object.keys]
    on the clone (array indices in ascending order first, then the other
    own keys but [__proto__] in the order of the body): when every declared
    property that validation reads is acceptable, the error is
    [object.unknown] and names the first of these keys that the schema does
    not declare. *)
Theorem first_undeclared_key_reported o before k after :
  valid_email_value (seen o "email") = true ->
  accepted_string (seen o "firstName") = true ->
  accepted_string (seen o "lastName") = true ->
  accepted_string (seen o "phone") = true ->
  accepted_string (seen o "hearingLossLevel") = true ->
  accepted_number (seen o "averageVolume") = true ->
  accepted_number (seen o "wordRecognitionScore") = true ->
  accepted_number (seen o "wordsMissed") = true ->
  Object_keys (Joi.own (Joi.clone o)) = before ++ k :: after ->
  (forall k', In k' before -> In k' schema_keys) ->
  ~ In k schema_keys ->
  customerSchema_validate (BodyObject o)
  = inl {| Joi.type := Joi.object_unknown; Joi.label := k |}.
Proof.
  intros He Hf Hl Hp Hh Ha Hr Hm Hkeys Hbefore Hk.
  apply required_email_accepts in He. destruct He as [e He].
  apply optional_string_accepts in Hf, Hl, Hp, Hh.
  apply optional_number_accepts in Ha, Hr, Hm.
  destruct Hf as [f Hf], Hl as [l Hl], Hp as [p Hp], Hh as [h Hh],
    Ha as [a Ha], Hr as [r Hr], Hm as [m Hm].
  assert (Hun : Joi.unprocessed schema_keys (Joi.own (Joi.clone o))
                = Some k).
  { unfold Joi.unprocessed. rewrite Hkeys. apply find_first.
    - intros k' Hin. apply negb_false_iff, declared_spec. auto.
    - apply negb_true_iff. destruct (existsb _ schema_keys) eqn:Hex; auto.
      apply declared_spec in Hex. contradiction. }
  unfold seen in *. unfold customerSchema_validate. cbv zeta.
  rewrite He, Hf, Hl, Hp, Hh, Ha, Hr, Hm, Hun. reflexivity.
Qed.

Lemma optional_number_inr item n :
  Joi.optional (Joi.number_ coerce_number) item = inr (Some n) ->
  exists q, n = Finite q /\ Joi.unsafe q = false.
Proof.
  unfold Joi.optional, Joi.number_, Joi.number_base_validate.
  destruct item as [[ | | [q|neg] | s | | ]|]; try discriminate.
  - destruct (Joi.unsafe q) eqn:Hq; [discriminate|].
    intros [= <-]. eauto.
  - destruct (coerce_number s) as [ | [q|neg] | ]; try discriminate.
    destruct (Joi.unsafe q) eqn:Hq; [discriminate|].
    intros [= <-]. eauto.
Qed.

(** X9. What the schema returns is well formed: [email] is a non-empty
    valid address, every string that is present is non-empty, and every
    number that is present is finite and within the safe-integer range. *)
Theorem validated_value_well_formed body value :
  customerSchema_validate body = inr value ->
  truthy (email value) = true /\
  isEmailValid (email value) = true /\
  (forall s,
     In (Some s) [ firstName value; lastName value; phone value;
                   hearingLossLevel value ] ->
     truthy s = true) /\
  (forall n,
     In (Some n) [ averageVolume value; wordRecognitionScore value;
                   wordsMissed value ] ->
     exists q, n = Finite q /\ Joi.unsafe q = false).
Proof.
  intros Hv. apply validate_inr in Hv.
  destruct Hv as (o & _ & He & Hf & Hl & Hp & Hh & Ha & Hr & Hm & _).
  destruct (seen o "email") as [v|]; simpl in He; [|discriminate].
  apply string_inr in He. destruct He as (_ & Ht & Hvalid).
  split; [exact Ht|]. split; [exact (Hvalid eq_refl)|]. split.
  - intros s Hin. simpl in Hin.
    destruct Hin as [H|[H|[H|[H|[]]]]]; rewrite H in *;
      match goal with
      | Hx : Joi.optional (Joi.string_ _ _) _ = inr (Some s) |- _ =>
          apply optional_string_inr in Hx; apply Hx
      end.
  - intros n Hin. simpl in Hin.
    destruct Hin as [H|[H|[H|[]]]]; rewrite H in *;
      match goal with
      | Hx : Joi.optional (Joi.number_ _) _ = inr (Some n) |- _ =>
          exact (optional_number_inr _ _ Hx)
      end.
Qed.

(** X10. When a body is forwarded, the call carries, for [email],
    [firstName], [lastName] and [phone], the value that validation read
    (the body's own property, or else the one of the object that the body
    carries as [__proto__]) as it is, or the empty string when there is
    none. *)
Theorem body_fields_forwarded_verbatim o w :
  forwards (BodyObject o) = true ->
  exists c,
    outbound (snd (addToShopify (BodyObject o) w))
    = outbound w ++ [ shopifyRequest (JObj [ ("customer", JObj c) ]) ] /\
    get c "email" = seen o "email" /\
    get c "first_name"
    = Some match seen o "firstName" with Some j => j | None => JStr "" end /\
    get c "last_name"
    = Some match seen o "lastName" with Some j => j | None => JStr "" end /\
    get c "phone"
    = Some match seen o "phone" with Some j => j | None => JStr "" end.
Proof.
  unfold forwards.
  destruct (customerSchema_validate (BodyObject o)) as [d|value] eqn:Hv;
    [discriminate|].
  intros Hpass. rewrite (addToShopify_forwards _ _ _ Hv Hpass).
  eexists. split; [reflexivity|]. simpl.
  apply validate_inr in Hv.
  destruct Hv as (o' & [= <-] & He & Hf & Hl & Hp & _).
  destruct (seen o "email") as [v|]; simpl in He; [|discriminate].
  apply string_inr in He. destruct He as (-> & _ & _).
  apply optional_string_inr in Hf, Hl, Hp.
  repeat split.
  - destruct (firstName value) as [s|];
      [destruct Hf as [-> Ht]; simpl; now rewrite Ht | now rewrite Hf].
  - destruct (lastName value) as [s|];
      [destruct Hl as [-> Ht]; simpl; now rewrite Ht | now rewrite Hl].
  - destruct (phone value) as [s|];
      [destruct Hp as [-> Ht]; simpl; now rewrite Ht | now rewrite Hp].
Qed.

Lemma get_Some_In o k v : get o k = Some v -> In (k, v) o.
Proof.
  induction o as [|[k' v'] o IH]; simpl; [discriminate|].
  destruct (String.eqb k' k) eqn:Hk.
  - apply String.eqb_eq in Hk. intros [= <-]. left. now subst.
  - intros H. right. auto.
Qed.

Lemma get_None_keys o k : get o k = None -> ~ In k (keys o).
Proof.
  induction o as [|[k' v'] o IH]; simpl; [intros _ []|].
  destruct (String.eqb k' k) eqn:Hk; [discriminate|].
  apply String.eqb_neq in Hk. intros H [Heq|Hin]; [contradiction|].
  now apply IH.
Qed.

Lemma In_get o k v : NoDup (keys o) -> In (k, v) o -> get o k = Some v.
Proof.
  induction o as [|[k' v'] o IH]; simpl; [intros _ []|].
  intros Hnd [Heq|Hin].
  - injection Heq as -> ->. now rewrite String.eqb_refl.
  - inversion Hnd as [|? ? Hnotin Hnd']; subst.
    destruct (String.eqb k' k) eqn:Hk; [|auto].
    apply String.eqb_eq in Hk. subst k'. exfalso. apply Hnotin.
    change k with (fst (k, v)). now apply in_map.
Qed.

Lemma get_permutation o o' k :
  Permutation o o' -> NoDup (keys o) -> get o' k = get o k.
Proof.
  intros Hperm Hnd.
  assert (Hnd' : NoDup (keys o')).
  { eapply Permutation_NoDup; [|exact Hnd]. now apply Permutation_map. }
  destruct (get o k) as [v|] eqn:Hget.
  - apply In_get; [assumption|].
    eapply Permutation_in; [exact Hperm|]. now apply get_Some_In.
  - destruct (get o' k) as [v|] eqn:Hget'; [|reflexivity].
    exfalso. apply get_None_keys in Hget. apply Hget.
    apply get_Some_In in Hget'.
    apply Permutation_sym in Hperm.
    apply (Permutation_in _ Hperm) in Hget'.
    change k with (fst (k, v)). now apply in_map.
Qed.

Lemma unprocessed_permutation o o' :
  Permutation o o' ->
  Joi.unprocessed schema_keys o = None ->
  Joi.unprocessed schema_keys o' = None.
Proof.
  rewrite !unprocessed_none. intros Hperm Hall k Hin. apply Hall.
  eapply Permutation_in; [|exact Hin].
  apply Permutation_sym. now apply Permutation_map.
Qed.

(** X11. The order of the properties in the body does not matter: for a
    body without undeclared keys, any reordering of its properties is
    validated to the same result and handled in the same way. *)
Theorem key_order_irrelevant o o' w :
  Permutation o o' ->
  NoDup (keys o) ->
  Joi.unprocessed schema_keys o = None ->
  customerSchema_validate (BodyObject o')
  = customerSchema_validate (BodyObject o) /\
  addToShopify (BodyObject o') w = addToShopify (BodyObject o) w.
Proof.
  intros Hperm Hnd Hun.
  assert (Hv : customerSchema_validate (BodyObject o')
               = customerSchema_validate (BodyObject o)).
  { pose proof (unprocessed_permutation _ _ Hperm Hun) as Hun'.
    unfold customerSchema_validate. cbv zeta.
    change (Joi.read (Joi.clone o')) with (seen o').
    change (Joi.read (Joi.clone o)) with (seen o).
    rewrite !(seen_plain o' _ (declared_no_proto _ Hun')) by discriminate.
    rewrite !(seen_plain o _ (declared_no_proto _ Hun)) by discriminate.
    rewrite !(get_permutation o o' _ Hperm Hnd).
    now rewrite (declared_own _ Hun), (declared_own _ Hun'). }
  split; [exact Hv|]. unfold addToShopify. now rewrite Hv.
Qed.

Lemma serve_cons body rest w :
  serve (body :: rest) w
  = (fst (addToShopify body w)
       :: fst (serve rest (snd (addToShopify body w))),
     snd (serve rest (snd (addToShopify body w)))).
Proof.
  simpl. unfold bind, ret.
  destruct (addToShopify body w) as [r w1]. simpl.
  now destruct (serve rest w1) as [rs w2].
Qed.

(** X12. Over a run of requests the server sends one reply per request and
    issues one call per forwarded request, after those already in the log;
    it reads the clock twice per forwarded request; and each call is a POST
    to the customers endpoint of the configured store, carrying the access
    token. *)
Theorem serve_accounting bodies w :
  length (fst (serve bodies w)) = length bodies /\
  clock (snd (serve bodies w))
  = (clock w + 2 * length (filter forwards bodies))%nat /\
  exists calls,
    outbound (snd (serve bodies w)) = outbound w ++ calls /\
    length calls = length (filter forwards bodies) /\
    Forall (fun r =>
              req_method r = "POST" /\
              req_url r = ("https://" ++ SHOPIFY_STORE_URL
                           ++ "/admin/api/2023-07/customers.json")%string /\
              req_headers r
              = [ ("Content-Type", "application/json");
                  ("X-Shopify-Access-Token", SHOPIFY_ACCESS_TOKEN) ])
           calls.
Proof.
  revert w. induction bodies as [|body rest IH]; intros w.
  - simpl. repeat split; [lia|]. exists []. rewrite app_nil_r. auto.
  - rewrite serve_cons. simpl fst. simpl snd.
    destruct (IH (snd (addToShopify body w)))
      as (Hlen & Hclock & calls & Hout & Hcalls & Hshape).
    split; [simpl; now rewrite Hlen|].
    rewrite Hclock, Hout. clear IH Hlen Hclock Hout.
    rewrite addToShopify_world. simpl filter.
    destruct (forwards body) eqn:Hfw; unfold forwards in Hfw;
      destruct (customerSchema_validate body) as [d|value];
      try discriminate Hfw; try rewrite Hfw.
    + simpl. split; [lia|].
      exists (issued value w :: calls). rewrite <- app_assoc.
      repeat split; simpl; auto.
    + split; [reflexivity|]. exists calls. auto.
    + split; [reflexivity|]. exists calls. auto.
Qed.

Lemma phone_passes_seen o value :
  customerSchema_validate (BodyObject o) = inr value ->
  phone_passes (phone value) = true <->
  match seen o "phone" with
  | Some (JStr p) => valid_phone p = true
  | _ => True
  end.
Proof.
  intros Hv. apply validate_inr in Hv.
  destruct Hv as (o' & [= <-] & _ & _ & _ & Hp & _).
  apply optional_string_inr in Hp.
  destruct (phone value) as [p|].
  - destruct Hp as [-> Ht]. simpl. rewrite Ht. reflexivity.
  - rewrite Hp. simpl. split; auto.
Qed.

(** X13. The handler issues a call for a body exactly when every declared
    property that validation reads is acceptable, the clone is left with no
    undeclared key, and the [phone] that validation reads, if any, is a
    valid number. *)
Theorem forwarded_iff o w :
  (exists r,
     outbound (snd (addToShopify (BodyObject o) w)) = outbound w ++ [ r ]) <->
  (valid_email_value (seen o "email") = true /\
   accepted_string (seen o "firstName") = true /\
   accepted_string (seen o "lastName") = true /\
   accepted_string (seen o "phone") = true /\
   accepted_string (seen o "hearingLossLevel") = true /\
   accepted_number (seen o "averageVolume") = true /\
   accepted_number (seen o "wordRecognitionScore") = true /\
   accepted_number (seen o "wordsMissed") = true /\
   Joi.unprocessed schema_keys (Joi.own (Joi.clone o)) = None) /\
  match seen o "phone" with
  | Some (JStr p) => valid_phone p = true
  | _ => True
  end.
Proof.
  rewrite <- validate_accepts, addToShopify_world. split.
  - intros [r Hout].
    destruct (customerSchema_validate (BodyObject o)) as [d|value] eqn:Hv.
    + symmetry in Hout. now apply app_one_neq in Hout.
    + destruct (phone_passes (phone value)) eqn:Hpass.
      * split; [eauto|]. now apply (phone_passes_seen _ _ Hv).
      * symmetry in Hout. now apply app_one_neq in Hout.
  - intros [[value Hv] Hphone].
    apply (phone_passes_seen _ _ Hv) in Hphone.
    rewrite Hv, Hphone. simpl. eauto.
Qed.

(** X14. When a body is forwarded, the call carries the
    [hearingLossLevel] that validation read (the body's own property, or
    else the one of the object that the body carries as [__proto__]) as it
    is, both as the tags and as the value of the one metafield; when there
    is none the tags are the empty string and there is no metafield. *)
Theorem hearing_loss_level_forwarded o w :
  forwards (BodyObject o) = true ->
  exists c,
    outbound (snd (addToShopify (BodyObject o) w))
    = outbound w ++ [ shopifyRequest (JObj [ ("customer", JObj c) ]) ] /\
    get c "tags"
    = Some match seen o "hearingLossLevel" with
           | Some j => j
           | None => JStr ""
           end /\
    get c "metafields"
    = Some (JArr match seen o "hearingLossLevel" with
                 | Some j =>
                     [ JObj [ ("namespace", JStr "custom");
                              ("key", JStr "hearing_loss_level");
                              ("value", j);
                              ("type", JStr "single_line_text_field") ] ]
                 | None => []
                 end).
Proof.
  unfold forwards.
  destruct (customerSchema_validate (BodyObject o)) as [d|value] eqn:Hv;
    [discriminate|].
  intros Hpass. rewrite (addToShopify_forwards _ _ _ Hv Hpass).
  eexists. split; [reflexivity|]. simpl.
  apply validate_inr in Hv.
  destruct Hv as (o' & [= <-] & _ & _ & _ & _ & Hh & _).
  apply optional_string_inr in Hh.
  destruct (hearingLossLevel value) as [h|].
  - destruct Hh as [-> Ht]. simpl. rewrite Ht. auto.
  - rewrite Hh. auto.
Qed.

End Server.

(** X1. The process listens exactly when both credentials are set and not
    empty, with the credentials it read; otherwise it exits with status 1.
    It listens on [PORT] when that is set and not empty, and on 5001
    otherwise. *)
Theorem main_characterised env :
  match main env with
  | Exit code =>
      code = 1%Z /\
      (not_ (env "SHOPIFY_ACCESS_TOKEN") = true \/
       not_ (env "SHOPIFY_STORE_URL") = true)
  | Listen PORT token url =>
      (exists t u,
         token = Some t /\ url = Some u /\ t <> "" /\ u <> "" /\
         env "SHOPIFY_ACCESS_TOKEN" = Some t /\
         env "SHOPIFY_STORE_URL" = Some u) /\
      (forall p, PORT = PortText p <-> env "PORT" = Some p /\ p <> "") /\
      (forall n, PORT = PortNumber n ->
         n = 5001%Z /\ (env "PORT" = None \/ env "PORT" = Some ""))
  end.
Proof.
  unfold main.
  destruct (env "SHOPIFY_ACCESS_TOKEN") as [[|a t]|] eqn:Ht; simpl; auto.
  destruct (env "SHOPIFY_STORE_URL") as [[|b u]|] eqn:Hu; simpl; auto.
  split; [|split].
  - exists (String a t), (String b u). repeat split; auto; discriminate.
  - intros p. destruct (env "PORT") as [[|c q]|]; simpl; split.
    all: try discriminate.
    all: try (intros [H _]; discriminate H).
    + intros [H Hne]. now injection H as <-.
    + intros [= <-]. split; [reflexivity|discriminate].
    + intros [[= <-] _]. reflexivity.
  - intros n. destruct (env "PORT") as [[|c q]|]; simpl.
    all: try discriminate.
    all: intros [= <-]; auto.
Qed.

(** X2. What a request does to the clock and to the log of calls does not
    depend on what the upstream answers: a refusal or a fault of the
    upstream is followed by no retry and no further call. *)
Theorem world_independent_of_upstream
    token url isEmailValid coerce_number PhoneNumber
    (parsePhoneNumberFromString : string -> option PhoneNumber) isValid
    JSON_stringify toISOString now network network' body w :
  snd (addToShopify token url isEmailValid coerce_number PhoneNumber
         parsePhoneNumberFromString isValid JSON_stringify toISOString
         now network body w)
  = snd (addToShopify token url isEmailValid coerce_number PhoneNumber
           parsePhoneNumberFromString isValid JSON_stringify toISOString
           now network' body w).
Proof. now rewrite !addToShopify_world. Qed.

(** ** The properties on the sample environment *)

Local Abbreviation sampled f network :=
  (f Sample.SHOPIFY_ACCESS_TOKEN Sample.SHOPIFY_STORE_URL
     Sample.isEmailValid Sample.coerce_number
     Sample.PhoneNumber Sample.parsePhoneNumberFromString Sample.isValid
     Sample.JSON_stringify Sample.toISOString Sample.now network)
  (only parsing).

Local Abbreviation validate :=
  (customerSchema_validate Sample.isEmailValid Sample.coerce_number)
  (only parsing).

Lemma invalid_email_rejected_witness :
  exists msg,
    sampled addToShopify Sample.creating Sample.no_address Sample.w0
    = (json_reply 400 (JObj [ ("error", JStr msg) ]), Sample.w0) /\
    outbound
      (snd (sampled addToShopify Sample.creating Sample.no_address Sample.w0))
    = [].
Proof.
  exact (sampled invalid_email_rejected Sample.creating
           Sample.no_address Sample.w0 eq_refl).
Defined.

(** C1 as stated fails: a body without an [email] of its own, whose
    [__proto__] member has one, is accepted and forwarded. *)
Lemma inherited_email_accepted :
  valid_email_value Sample.isEmailValid (email_field Fixture.proto_email)
  = false /\
  status
    (fst (sampled addToShopify Sample.creating
            Fixture.proto_email Sample.w0))
  = 200%Z /\
  length
    (outbound
       (snd (sampled addToShopify Sample.creating
               Fixture.proto_email Sample.w0)))
  = 1%nat.
Proof. repeat split. Qed.

Lemma invalid_phone_rejected_witness :
  sampled addToShopify Sample.creating
    (BodyObject Sample.local_phone) Sample.w0
  = (json_reply 400
       (JObj [ ("error", JStr "Enter a valid phone number in E.164 format") ]),
     Sample.w0) /\
  outbound
    (snd (sampled addToShopify Sample.creating
            (BodyObject Sample.local_phone) Sample.w0))
  = [].
Proof.
  exact (sampled invalid_phone_rejected Sample.creating
           Sample.local_phone Sample.local_phone_value "555-0100" Sample.w0
           eq_refl eq_refl eq_refl).
Defined.

Lemma unknown_key_rejected_witness :
  exists d,
    validate (BodyObject Sample.with_referrer) = inl d /\
    sampled addToShopify Sample.creating
      (BodyObject Sample.with_referrer) Sample.w0
    = (json_reply 400 (JObj [ ("error", JStr (Joi.message d)) ]), Sample.w0).
Proof.
  assert (Hout : ~ In "referrer" schema_keys).
  { simpl. intros H.
    repeat (destruct H as [H|H]; [discriminate H|]). exact H. }
  assert (Hproto : "referrer" <> "__proto__") by discriminate.
  destruct (sampled unknown_key_rejected Sample.creating
              Sample.with_referrer "referrer" Sample.w0
              (or_intror (or_introl eq_refl)) Hproto Hout)
    as (d & Hv & _ & Hreply & _).
  exists d. split; assumption.
Defined.

(** C10 as stated fails: [__proto__] is a key outside the schema, and a
    body that carries it is accepted and forwarded. *)
Lemma proto_key_accepted :
  In "__proto__" (keys Fixture.proto_extra) /\
  ~ In "__proto__" schema_keys /\
  status
    (fst (sampled addToShopify Sample.creating
            (BodyObject Fixture.proto_extra) Sample.w0))
  = 200%Z /\
  length
    (outbound
       (snd (sampled addToShopify Sample.creating
               (BodyObject Fixture.proto_extra) Sample.w0)))
  = 1%nat.
Proof.
  split; [simpl; auto|]. split; [|split; reflexivity].
  simpl. intros H.
  repeat (destruct H as [H|H]; [discriminate H|]). exact H.
Qed.


Lemma defaults_and_consent_witness :
  exists c,
    outbound
      (snd (sampled addToShopify Sample.creating Sample.anonymous Sample.w0))
    = [ shopifyRequest Sample.SHOPIFY_ACCESS_TOKEN Sample.SHOPIFY_STORE_URL
          Sample.JSON_stringify (JObj [ ("customer", JObj c) ]) ] /\
    get c "first_name" = Some (JStr "") /\
    get c "last_name" = Some (JStr "") /\
    get c "phone" = Some (JStr "") /\
    get c "email_marketing_consent"
    = Some (JObj [ ("state", JStr "subscribed");
                   ("opt_in_level", JStr "single_opt_in");
                   ("consent_updated_at", JStr "1700000000000") ]) /\
    get c "sms_marketing_consent"
    = Some (JObj [ ("state", JStr "subscribed");
                   ("opt_in_level", JStr "single_opt_in");
                   ("consent_updated_at", JStr "1700000000001");
                   ("consent_collected_from", JStr "SHOPIFY") ]).
Proof.
  exact (sampled defaults_and_consent Sample.creating
           Sample.anonymous Sample.anonymous_value Sample.w0
           eq_refl eq_refl).
Defined.

Lemma other_fields_accepted_witness :
  exists value, validate (BodyObject Sample.ann) = inr value.
Proof.
  apply (other_fields_accepted_iff Sample.isEmailValid Sample.coerce_number
           Sample.ann eq_refl eq_refl eq_refl).
  repeat split.
Defined.

(** C6 as stated fails: with a valid [email], an empty [firstName] and an
    [averageVolume] of 2^53 are a string and a number, and the schema
    refuses both; the handler answers 400. *)
Lemma other_fields_refused :
  valid_email_value Sample.isEmailValid (email_field Sample.empty_name)
  = true /\
  validate Sample.empty_name
  = inl {| Joi.type := Joi.string_empty; Joi.label := "firstName" |} /\
  status
    (fst (sampled addToShopify Sample.creating Sample.empty_name Sample.w0))
  = 400%Z /\
  validate Sample.huge_volume
  = inl {| Joi.type := Joi.number_unsafe; Joi.label := "averageVolume" |} /\
  status
    (fst (sampled addToShopify Sample.creating Sample.huge_volume Sample.w0))
  = 400%Z.
Proof. repeat split. Qed.

Lemma upstream_failure_passed_through_witness :
  fst (sampled addToShopify Sample.refusing Sample.anonymous Sample.w0)
  = json_reply 422
      (JObj [ ("error",
               JObj [ ("errors",
                       JObj [ ("email",
                               JArr [ JStr "has already been taken" ]) ]) ]) ]).
Proof.
  exact (sampled upstream_failure_passed_through Sample.refusing
           Sample.anonymous Sample.anonymous_value Sample.w0
           {| res_status := 422;
              res_headers := [ ("X-Shopify-Shop-Api-Call-Limit", "1/40") ];
              res_json := inr Sample.taken |}
           Sample.taken eq_refl eq_refl eq_refl eq_refl eq_refl).
Defined.

(** C7 as stated fails: a 502 whose body is not JSON is answered with
    500, not with 502. *)
Lemma unparseable_failure_answered_500 :
  ok Fixture.bad_gateway = false /\
  res_status Fixture.bad_gateway = 502%Z /\
  fst (sampled addToShopify (fun _ => inr Fixture.bad_gateway)
         Sample.anonymous Sample.w0)
  = json_reply 500
      (JObj [ ("message", JStr "Internal Server Error");
              ("error",
               JStr "SyntaxError: Unexpected token < in JSON at position 0") ]).
Proof. repeat split. Qed.

(** C8 as stated fails: a 204 without a body is answered with 500, not
    with 200. *)
Lemma unparseable_success_answered_500 :
  ok Fixture.no_content = true /\
  fst (sampled addToShopify (fun _ => inr Fixture.no_content)
         Sample.anonymous Sample.w0)
  = json_reply 500
      (JObj [ ("message", JStr "Internal Server Error");
              ("error", JStr "SyntaxError: Unexpected end of JSON input") ]).
Proof. repeat split. Qed.

Lemma upstream_success_reported_witness :
  fst (sampled addToShopify Sample.creating Sample.anonymous Sample.w0)
  = json_reply 200
      (JObj [ ("message", JStr "Customer added to Shopify successfully");
              ("data", Sample.created) ]).
Proof.
  exact (sampled upstream_success_reported Sample.creating
           Sample.anonymous Sample.anonymous_value Sample.w0
           {| res_status := 201;
              res_headers := [ ("X-Shopify-Shop-Api-Call-Limit", "1/40") ];
              res_json := inr Sample.created |}
           Sample.created eq_refl eq_refl eq_refl eq_refl eq_refl).
Defined.

Lemma fault_reported_witness :
  fst (sampled addToShopify Sample.failing Sample.anonymous Sample.w0)
  = json_reply 500
      (JObj [ ("message", JStr "Internal Server Error");
              ("error",
               JStr "FetchError: request to hearing-test.myshopify.com failed") ]).
Proof.
  exact (sampled fault_reported Sample.failing
           Sample.anonymous Sample.anonymous_value Sample.w0
           Sample.unreachable eq_refl eq_refl eq_refl).
Defined.

Lemma no_call_is_local_refusal_witness :
  snd (sampled addToShopify Sample.creating Sample.no_address Sample.w0)
  = Sample.w0 /\
  exists msg,
    fst (sampled addToShopify Sample.creating Sample.no_address Sample.w0)
    = json_reply 400 (JObj [ ("error", JStr msg) ]).
Proof.
  exact (sampled no_call_is_local_refusal Sample.creating
           Sample.no_address Sample.w0 eq_refl).
Defined.

Lemma status_200_means_created_witness :
  exists shopifyData,
    sent (fst (sampled addToShopify Sample.creating
                 Sample.anonymous Sample.w0))
    = JObj [ ("message", JStr "Customer added to Shopify successfully");
             ("data", shopifyData) ].
Proof.
  destruct (sampled status_200_means_created Sample.creating
              Sample.anonymous Sample.w0 eq_refl)
    as (value & shopifyResponse & shopifyData & _ & _ & _ & _ & _ & Hsent).
  exists shopifyData. exact Hsent.
Defined.

Lemma scores_not_forwarded_witness :
  sampled addToShopify Sample.creating (BodyObject Sample.ann) Sample.w0
  = sampled addToShopify Sample.creating
      (BodyObject Fixture.ann_rescored) Sample.w0.
Proof.
  exact (sampled scores_not_forwarded Sample.creating
           (BodyObject Sample.ann) (BodyObject Fixture.ann_rescored)
           Sample.ann_value Fixture.ann_rescored_value Sample.w0
           eq_refl eq_refl eq_refl eq_refl eq_refl eq_refl eq_refl).
Defined.

Lemma email_checked_first_witness :
  validate
    (BodyObject [ ("referrer", JStr "newsletter"); ("firstName", JStr "");
                  ("email", JStr "ann.example.com") ])
  = inl {| Joi.type := Joi.string_email; Joi.label := "email" |}.
Proof.
  exact (email_checked_first Sample.isEmailValid Sample.coerce_number
           [ ("referrer", JStr "newsletter"); ("firstName", JStr "");
             ("email", JStr "ann.example.com") ] eq_refl).
Defined.

Lemma first_undeclared_key_reported_witness :
  validate (BodyObject Fixture.numbered)
  = inl {| Joi.type := Joi.object_unknown; Joi.label := "7" |}.
Proof.
  apply (first_undeclared_key_reported
           Sample.isEmailValid Sample.coerce_number
           Fixture.numbered [] "7" [ "utm"; "email" ]);
    try reflexivity.
  - intros k' [].
  - simpl. intros H.
    repeat (destruct H as [H|H]; [discriminate H|]). exact H.
Defined.

Lemma validated_value_well_formed_witness :
  exists q, Finite (inject_Z 42) = Finite q /\ Joi.unsafe q = false.
Proof.
  destruct (validated_value_well_formed
              Sample.isEmailValid Sample.coerce_number
              (BodyObject Sample.ann) Sample.ann_value eq_refl)
    as (_ & _ & _ & Hnumbers).
  apply Hnumbers. left. reflexivity.
Defined.

Lemma body_fields_forwarded_verbatim_witness :
  exists c,
    outbound
      (snd (sampled addToShopify Sample.creating
              (BodyObject Fixture.proto_name) Sample.w0))
    = [ shopifyRequest Sample.SHOPIFY_ACCESS_TOKEN Sample.SHOPIFY_STORE_URL
          Sample.JSON_stringify (JObj [ ("customer", JObj c) ]) ] /\
    get c "email" = Some (JStr "a@b.com") /\
    get c "first_name" = Some (JStr "Mallory") /\
    get c "last_name" = Some (JStr "") /\
    get c "phone" = Some (JStr "").
Proof.
  exact (sampled body_fields_forwarded_verbatim Sample.creating
           Fixture.proto_name Sample.w0 eq_refl).
Defined.

Lemma key_order_irrelevant_witness :
  validate (BodyObject Fixture.ann_reordered) = inr Sample.ann_value /\
  sampled addToShopify Sample.creating
    (BodyObject Fixture.ann_reordered) Sample.w0
  = sampled addToShopify Sample.creating (BodyObject Sample.ann) Sample.w0.
Proof.
  apply (sampled key_order_irrelevant Sample.creating
           Sample.ann Fixture.ann_reordered Sample.w0).
  - unfold Sample.ann, Fixture.ann_reordered.
    apply (Permutation_cons_app (_ :: _ :: nil) (_ :: _ :: nil)).
    apply (Permutation_cons_app (_ :: _ :: _ :: nil) nil).
    apply (Permutation_cons_app (_ :: nil) (_ :: nil)).
    apply (Permutation_cons_app (_ :: nil) nil).
    apply Permutation_refl.
  - simpl. repeat constructor; simpl; intros H;
      repeat (destruct H as [H|H]; [discriminate H|]); exact H.
  - reflexivity.
Defined.

Lemma hearing_loss_level_forwarded_witness :
  exists c,
    outbound
      (snd (sampled addToShopify Sample.creating
              (BodyObject Sample.ann) Sample.w0))
    = [ shopifyRequest Sample.SHOPIFY_ACCESS_TOKEN Sample.SHOPIFY_STORE_URL
          Sample.JSON_stringify (JObj [ ("customer", JObj c) ]) ] /\
    get c "tags" = Some (JStr "moderate") /\
    get c "metafields"
    = Some (JArr [ JObj [ ("namespace", JStr "custom");
                          ("key", JStr "hearing_loss_level");
                          ("value", JStr "moderate");
                          ("type", JStr "single_line_text_field") ] ]).
Proof.
  exact (sampled hearing_loss_level_forwarded Sample.creating
           Sample.ann Sample.w0 eq_refl).
Defined.
